(** * The ML pipeline driver of [main.py], embedded and verified

    [main.py] resolves the configured step selection against the fixed
    list [_steps], sets two W&B environment variables, opens a
    [tempfile.TemporaryDirectory] and then walks a chain of [if] blocks,
    one per step, each of which builds a parameter dictionary and hands
    it to [mlflow.run].

    The embedding keeps that shape: Python values are an inductive type,
    the configuration is a record with one field per key the driver
    reads, the process state (environment, current directory, files,
    directories) is a record threaded through a small state-and-exception
    monad, and every observable action is appended to an event log so
    that orderings and counts can be stated. *)

From Stdlib Require Import PrimFloat Ascii.
From stdpp Require Import gmap strings list.

Local Open Scope string_scope.
Local Open Scope list_scope.
Local Open Scope nat_scope.

(** ** Python values and exceptions *)

(** The scalars a configuration leaf or a step parameter can hold.
    Python's [float] is IEEE binary64, as is [PrimFloat.float]. *)
Inductive pyval : Type :=
  | PyNone
  | PyBool (b : bool)
  | PyInt (z : Z)
  | PyFloat (f : float)
  | PyStr (s : string).

(** The exceptions that can leave [go]: [mlflow.run] raises
    [ExecutionException] when the launched run fails; [int] and [float]
    raise the other three on values they cannot convert. *)
Inductive exn : Type :=
  | ExecutionException
  | ValueError
  | TypeError
  | OverflowError.

(** ** The configuration ([config.yaml] as read by hydra) *)

Record MainConfig : Type := {
  project_name : string;
  experiment_name : string;
  steps : string;
  components_repository : string }.

Record EtlConfig : Type := {
  sample : pyval;
  min_price : pyval;
  max_price : pyval }.

Record DataConfig : Type := { raw_artifact : pyval }.

Record DataCheckConfig : Type := { kl_threshold : pyval }.

Record ModelingConfig : Type := {
  test_size : pyval;
  random_seed : pyval;
  stratify_by : pyval;
  val_size : pyval;
  max_tfidf_features : pyval;
  random_forest : list (string * pyval) }.

Record DictConfig : Type := {
  main : MainConfig;
  etl : EtlConfig;
  data : DataConfig;
  data_check : DataCheckConfig;
  modeling : ModelingConfig }.

(** ** What [mlflow.run] receives *)

(** [parameters] is an association list: a Python dict literal keeps the
    order in which its keys are written. *)
Record Invocation : Type := {
  uri : string;
  entry_point : string;
  env_manager : string;
  parameters : list (string * pyval) }.

(** ** Process state and the event log *)

Inductive Event : Type :=
  | EvSetenv (key value : string)
  | EvMkdtemp (dir : string)
  | EvWrite (path content : string)
  | EvRun (step : string) (inv : Invocation) (ok : bool)
  | EvCleanup (dir : string).

(** [EvRun] carries the guard token of the [if] block that made the call
    and the outcome of the call; neither is passed to [mlflow.run], they
    are recorded so that theorems can speak of "the step" and of "a
    failure at position i". *)

Record State : Type := {
  environ : gmap string string;
  cwd : string;
  files : gmap string string;
  dirs : gset string;
  log : list Event }.

Definition emit (e : Event) (s : State) : State :=
  {| environ := environ s; cwd := cwd s; files := files s;
     dirs := dirs s; log := log s ++ [e] |}.

(** ** A state-and-exception monad

    A raised exception keeps the state reached so far: Python does not
    undo side effects when it unwinds. *)

Definition M (A : Type) : Type := State → (exn + A) * State.

Definition ret {A} (a : A) : M A := λ s, (inr a, s).

Definition raise {A} (e : exn) : M A := λ s, (inl e, s).

Definition bind {A B} (m : M A) (k : A → M B) : M B :=
  λ s, match m s with
       | (inr a, s') => k a s'
       | (inl e, s') => (inl e, s')
       end.

Definition lift {A} (r : exn + A) : M A := λ s, (r, s).

(** stdpp's [x ← m; k] and [m;; k] notations, through its monad classes. *)
#[global] Instance M_ret : MRet M := @ret.
#[global] Instance M_bind : MBind M := λ A B k m, bind m k.

(** [pass] *)
Definition pass : M unit := ret tt.

(** [if c: body] with no [else] *)
Definition when (c : bool) (body : M unit) : M unit :=
  if c then body else ret tt.

(** ** Operating-system primitives used by the driver *)

(** [os.environ[key] = value] *)
Definition setenv (key value : string) : M unit :=
  λ s, (inr tt,
        emit (EvSetenv key value)
          {| environ := <[key := value]> (environ s); cwd := cwd s;
             files := files s; dirs := dirs s; log := log s |}).

(** [os.path.abspath(name)] for a plain file name: the current directory,
    which [os.getcwd] reports absolute and normalised, joined with it. *)
Definition abspath (name : string) : M string :=
  λ s, (inr (if decide (cwd s = "/") then "/" +:+ name
             else cwd s +:+ "/" +:+ name), s).

(** [with open(path, "w+") as fp: fp.write(content)]: the file is created
    or truncated and holds [content] afterwards. *)
Definition write_file (path content : string) : M unit :=
  λ s, (inr tt,
        emit (EvWrite path content)
          {| environ := environ s; cwd := cwd s;
             files := <[path := content]> (files s);
             dirs := dirs s; log := log s |}).

(** [p] lies strictly below directory [d]. *)
Definition under (d p : string) : bool := String.prefix (d +:+ "/") p.

(** [shutil.rmtree(d, ignore_errors)]: [d] and everything below it goes;
    a directory that is already gone is not an error. *)
Definition rmtree (d : string) (s : State) : State :=
  {| environ := environ s; cwd := cwd s;
     files := filter (λ kv, under d kv.1 = false) (files s);
     dirs := filter (λ p, p ≠ d ∧ under d p = false) (dirs s);
     log := log s |}.

(** [tempfile.mkdtemp()] creating directory [d]. *)
Definition mkdtemp (d : string) : M string :=
  λ s, (inr d,
        emit (EvMkdtemp d)
          {| environ := environ s; cwd := cwd s; files := files s;
             dirs := {[d]} ∪ dirs s; log := log s |}).

(** [TemporaryDirectory.cleanup()] *)
Definition cleanup (d : string) : M unit :=
  λ s, (inr tt, emit (EvCleanup d) (rmtree d s)).

(** [with tempfile.TemporaryDirectory() as tmp_dir: body]: [__exit__]
    runs [cleanup] whether [body] returned or raised, and lets the
    exception through. *)
Definition with_TemporaryDirectory {A} (d : string) (body : string → M A) : M A :=
  λ s, match mkdtemp d s with
       | (inr tmp_dir, s1) =>
           let '(r, s2) := body tmp_dir s1 in
           (r, (cleanup d s2).2)
       | (inl e, s1) => (inl e, s1)
       end.

(** ** [str.split(",")] and [in] *)

(** Python's [s.split(sep)] for a one-character separator: never empty,
    and the empty string splits to one empty token. *)
Fixpoint split (sep : Ascii.ascii) (s : string) : list string :=
  match s with
  | EmptyString => [EmptyString]
  | String c rest =>
      if Ascii.eqb c sep then EmptyString :: split sep rest
      else match split sep rest with
           | [] => [String c EmptyString]
           | tok :: toks => String c tok :: toks
           end
  end.

(** [x in l] on a list of strings *)
Definition py_in (x : string) (l : list string) : bool := bool_decide (x ∈ l).

(** ** The step registry *)

Definition _steps : list string :=
  [ "download";
    "basic_cleaning";
    "data_check";
    "train_val_test_split";
    "train_random_forest";
    "test_regression_model" ].

(** [steps_par.split(",") if steps_par != "all" else _steps] *)
Definition active_steps_of (steps_par : string) : list string :=
  if bool_decide (steps_par ≠ "all") then split ","%char steps_par else _steps.

(** ** Observations on the event log *)

(** The calls made to the executor, oldest first. *)
Definition runs (l : list Event) : list (string * Invocation * bool) :=
  omap (λ e, match e with EvRun step inv ok => Some (step, inv, ok) | _ => None end) l.

(** The steps whose executor was invoked, oldest first. *)
Definition invoked (l : list Event) : list string := (λ r, r.1.1) <$> runs l.

(** The directories released by [cleanup], oldest first. *)
Definition released (l : list Event) : list string :=
  omap (λ e, match e with EvCleanup d => Some d | _ => None end) l.

(** The files written, oldest first. *)
Definition written (l : list Event) : list string :=
  omap (λ e, match e with EvWrite p _ => Some p | _ => None end) l.

(** What a computation appends to the log when started in [s]. *)
Definition events_of {A} (m : M A) (s : State) : list Event :=
  drop (length (log s)) (log (m s).2).

(** The outcome of a computation started in [s]. *)
Definition result_of {A} (m : M A) (s : State) : exn + A := (m s).1.

(** ** The driver *)

(** Collaborators that are not code of this repository.  [mlflow_run]
    tells whether the launched run succeeds; it may depend on the
    invocation and on everything that happened before, so every sequence
    of outcomes is covered.  [py_str], [py_int] and [py_float] are the
    builtins [str], [int] and [float]; [json_dumps] is the text
    [json.dump] writes.  [tmp_name] is the directory name [tempfile]
    picks for the run. *)
Class Runtime : Type := {
  mlflow_run : State → Invocation → bool;
  py_str : pyval → string;
  py_int : pyval → exn + Z;
  py_float : pyval → exn + float;
  json_dumps : list (string * pyval) → string;
  tmp_name : string }.

Section Driver.

Context `{Runtime}.

(** [_ = mlflow.run(uri, entry_point, env_manager=..., parameters=...)]
    made by the block guarded by [step]: a failed run raises. *)
Definition run (step : string) (inv : Invocation) : M unit :=
  λ s, let ok := mlflow_run s inv in
       (if ok then inr tt else inl ExecutionException,
        emit (EvRun step inv ok) s).

(** The argument lists of the six calls, in the order Python evaluates
    them. *)

Definition download_call (config : DictConfig) : M Invocation :=
  mret {| uri := components_repository (main config) +:+ "/get_data";
          entry_point := "main";
          env_manager := "conda";
          parameters :=
            [ ("sample", sample (etl config));
              ("artifact_name", PyStr "sample.csv");
              ("artifact_type", PyStr "raw_data");
              ("artifact_description", PyStr "Raw file as downloaded") ] |}.

Definition basic_cleaning_call (config : DictConfig) : M Invocation :=
  mret {| uri := components_repository (main config) +:+ "/basic_cleaning";
          entry_point := "main";
          env_manager := "conda";
          parameters :=
            [ ("input_artifact", raw_artifact (data config));
              ("output_artifact", PyStr "clean_data.csv");
              ("output_type", PyStr "clean_data");
              ("output_description",
               PyStr "Cleaned dataset after basic preprocessing") ] |}.

Definition data_check_call (config : DictConfig) : M Invocation :=
  mret {| uri := components_repository (main config) +:+ "/data_check";
          entry_point := "main";
          env_manager := "conda";
          parameters :=
            [ ("csv", PyStr "clean_sample.csv:latest");
              ("ref", PyStr "clean_sample.csv:reference");
              ("kl_threshold", kl_threshold (data_check config));
              ("min_price", min_price (etl config));
              ("max_price", max_price (etl config)) ] |}.

Definition train_val_test_split_call (config : DictConfig) : M Invocation :=
  mret {| uri := components_repository (main config) +:+ "/train_val_test_split";
          entry_point := "main";
          env_manager := "conda";
          parameters :=
            [ ("input", PyStr "clean_sample.csv:latest");
              ("test_size", PyStr (py_str (test_size (modeling config))));
              ("random_seed", PyStr (py_str (random_seed (modeling config))));
              ("stratify_by", PyStr (py_str (stratify_by (modeling config)))) ] |}.

(** The training block first writes [rf_config.json] next to the
    current directory, then converts the tunables. *)
Definition train_random_forest_call (config : DictConfig) : M Invocation :=
  rf_config ← abspath "rf_config.json";
  write_file rf_config (json_dumps (random_forest (modeling config)));;
  val_size' ← lift (py_float (val_size (modeling config)));
  random_seed' ← lift (py_int (random_seed (modeling config)));
  max_tfidf_features' ← lift (py_int (max_tfidf_features (modeling config)));
  mret {| uri := "src/train_random_forest";
          entry_point := "main";
          env_manager := "conda";
          parameters :=
            [ ("trainval_artifact", PyStr "trainval_data.csv:latest");
              ("val_size", PyFloat val_size');
              ("random_seed", PyInt random_seed');
              ("stratify_by", PyStr (py_str (stratify_by (modeling config))));
              ("max_tfidf_features", PyInt max_tfidf_features');
              ("rf_config", PyStr rf_config);
              ("output_artifact", PyStr "random_forest_export") ] |}.

Definition test_regression_model_call (config : DictConfig) : M Invocation :=
  mret {| uri := "components/test_regression_model";
          entry_point := "main";
          env_manager := "conda";
          parameters :=
            [ ("mlflow_model", PyStr "random_forest_export:prod");
              ("test_dataset", PyStr "test_data.csv:latest") ] |}.

(** The body of the [with] statement: the chain of [if] blocks.
    [tmp_dir] is bound and never used. *)
Definition pipeline (config : DictConfig) (active_steps : list string)
    (tmp_dir : string) : M unit :=
  when (py_in "download" active_steps)
    (inv ← download_call config; run "download" inv);;
  when (py_in "basic_cleaning" active_steps)
    (inv ← basic_cleaning_call config; run "basic_cleaning" inv);;
  pass;;
  when (py_in "data_check" active_steps)
    (inv ← data_check_call config; run "data_check" inv);;
  pass;;
  when (py_in "train_val_test_split" active_steps)
    (inv ← train_val_test_split_call config; run "train_val_test_split" inv);;
  pass;;
  when (py_in "train_random_forest" active_steps)
    (inv ← train_random_forest_call config; run "train_random_forest" inv);;
  pass;;
  when (py_in "test_regression_model" active_steps)
    (inv ← test_regression_model_call config; run "test_regression_model" inv);;
  pass.

Definition go (config : DictConfig) : M unit :=
  setenv "WANDB_PROJECT" (project_name (main config));;
  setenv "WANDB_RUN_GROUP" (experiment_name (main config));;
  let steps_par := steps (main config) in
  let active_steps := active_steps_of steps_par in
  with_TemporaryDirectory tmp_name (pipeline config active_steps).

(** The state in which the [with] body starts. *)
Definition entered (config : DictConfig) (s : State) : State :=
  (mkdtemp tmp_name
     (setenv "WANDB_RUN_GROUP" (experiment_name (main config))
        (setenv "WANDB_PROJECT" (project_name (main config)) s).2).2).2.

(** *** The chain of blocks as a table

    The six blocks differ only in their guard token and their argument
    list, so the chain is an iteration over this table; [pipeline_table]
    below proves the two equal. *)
Definition table (config : DictConfig) : list (string * M Invocation) :=
  [ ("download", download_call config);
    ("basic_cleaning", basic_cleaning_call config);
    ("data_check", data_check_call config);
    ("train_val_test_split", train_val_test_split_call config);
    ("train_random_forest", train_random_forest_call config);
    ("test_regression_model", test_regression_model_call config) ].

Fixpoint run_table (tbl : list (string * M Invocation))
    (active_steps : list string) : M unit :=
  match tbl with
  | [] => pass
  | (step, call) :: rest =>
      when (py_in step active_steps) (inv ← call; run step inv);;
      run_table rest active_steps
  end.

End Driver.

(** ** A sample configuration and a sample run-time *)

Definition sample_config (selection : string) : DictConfig :=
  {| main := {| project_name := "nyc_airbnb";
                experiment_name := "development";
                steps := selection;
                components_repository := "https://example.org/repo#components" |};
     etl := {| sample := PyStr "sample1.csv";
               min_price := PyInt 10;
               max_price := PyInt 350 |};
     data := {| raw_artifact := PyStr "sample.csv:latest" |};
     data_check := {| kl_threshold := PyFloat 0.25 |};
     modeling := {| test_size := PyFloat 0.25;
                    random_seed := PyInt 42;
                    stratify_by := PyStr "neighbourhood_group";
                    val_size := PyFloat 0.25;
                    max_tfidf_features := PyInt 5;
                    random_forest := [("n_estimators", PyInt 100)] |} |}.

Definition sample_state : State :=
  {| environ := ∅; cwd := "/home/user/project"; files := ∅; dirs := ∅; log := [] |}.

(** A run-time in which the launched runs succeed until [budget] of them
    have been made and fail from then on, and the conversions are the
    identity on values of the right type. *)
Definition sample_runtime (budget : nat) : Runtime :=
  {| mlflow_run := λ s _, bool_decide (length (runs (log s)) < budget);
     py_str := λ v, match v with PyStr s => s | _ => "?" end;
     py_int := λ v, match v with PyInt z => inr z | _ => inl TypeError end;
     py_float := λ v, match v with PyFloat f => inr f | _ => inl TypeError end;
     json_dumps := λ _, "{}";
     tmp_name := "/tmp/tmpab12cd" |}.

(** A state that holds nothing but a current directory: an argument list
    is evaluated in it to see what it is without running the driver. *)
Definition blank (c : string) : State :=
  {| environ := ∅; cwd := c; files := ∅; dirs := ∅; log := [] |}.

(** The registry steps named by the active list, in registry order. *)
Definition ordered (active_steps : list string) : list string :=
  filter (λ step, step ∈ active_steps) _steps.

(** A selection token is known when the registry lists it. *)
Definition known (tok : string) : Prop := tok ∈ _steps.

#[global] Instance known_dec tok : Decision (known tok) :=
  decide (tok ∈ _steps).

(** The calls a table would make for an active list when nothing fails:
    the guard token and the argument list (or the exception that building
    it raises) of each selected block, in table order. *)
Definition plan (tbl : list (string * M Invocation)) (active_steps : list string)
    (c : string) : list (string * (exn + Invocation)) :=
  (λ e, (e.1, (e.2 (blank c)).1)) <$> filter (λ e, e.1 ∈ active_steps) tbl.

(** How the calls actually made relate to the plan: they follow it entry
    by entry, and stop at the first launched run that fails or the first
    argument list that raises. *)
Inductive shape :
  list (string * (exn + Invocation)) → exn + unit →
  list (string * Invocation * bool) → Prop :=
  | shape_done : shape [] (inr tt) []
  | shape_ok step inv p r tr :
      shape p r tr → shape ((step, inr inv) :: p) r ((step, inv, true) :: tr)
  | shape_failed step inv p :
      shape ((step, inr inv) :: p) (inl ExecutionException) [(step, inv, false)]
  | shape_raised step e p :
      shape ((step, inl e) :: p) (inl e) [].

(** An argument list is quiet when building it leaves the environment
    and the current directory alone, launches nothing, releases nothing
    and yields a value that depends on the current directory only. *)
Definition quiet (call : M Invocation) : Prop :=
  ∀ s, environ (call s).2 = environ s ∧ cwd (call s).2 = cwd s ∧
       (call s).1 = (call (blank (cwd s))).1 ∧
       ∃ evs, log (call s).2 = log s ++ evs ∧ runs evs = [] ∧ released evs = [].

(** How often [step] occurs in a list of steps. *)
Definition times (step : string) (l : list string) : nat :=
  length (filter (λ y, y = step) l).

(** A parameter mapping with the value of its [rf_config] key blanked:
    that value is a path below the directory the run was started in. *)
Definition scrub (ps : list (string * pyval)) : list (string * pyval) :=
  (λ kv, (kv.1, if bool_decide (kv.1 = "rf_config") then PyNone else kv.2)) <$> ps.

(** The same Python, another world: other executor outcomes and another
    temporary directory name. *)
Definition elsewhere (R : Runtime) (run' : State → Invocation → bool)
    (tmp' : string) : Runtime :=
  {| mlflow_run := run';
     py_str := @py_str R;
     py_int := @py_int R;
     py_float := @py_float R;
     json_dumps := @json_dumps R;
     tmp_name := tmp' |}.

(** Two argument lists agree when they raise the same exception or name
    the same project, entry point and environment manager and carry the
    same parameters, key for key, up to the [rf_config] path. *)
Definition agree (r1 r2 : exn + Invocation) : Prop :=
  match r1, r2 with
  | inr a, inr b =>
      uri a = uri b ∧ entry_point a = entry_point b ∧
      env_manager a = env_manager b ∧
      scrub (parameters a) = scrub (parameters b)
  | inl e1, inl e2 => e1 = e2
  | _, _ => False
  end.

(** Two executor calls agree when they are made for the same step with
    agreeing argument lists. *)
Definition same_call (e1 e2 : string * Invocation * bool) : Prop :=
  e1.1.1 = e2.1.1 ∧ agree (inr e1.1.2) (inr e2.1.2).

(** ** Definitions for the further properties *)

(** [c in s] for a character and a string. *)
Fixpoint contains (c : Ascii.ascii) (s : string) : bool :=
  match s with
  | EmptyString => false
  | String c' rest => if Ascii.eqb c' c then true else contains c rest
  end.

(** Where [os.path.abspath("rf_config.json")] points when the current
    directory is [c]. *)
Definition rf_config_path (c : string) : string :=
  if decide (c = "/") then "/" +:+ "rf_config.json"
  else c +:+ "/" +:+ "rf_config.json".

(** What building an argument list appends to the log when the current
    directory is [c]. *)
Definition pre_events (call : M Invocation) (c : string) : list Event :=
  log (call (blank c)).2.

(** An argument list is steady when the events it logs depend on the
    current directory only. *)
Definition steady (call : M Invocation) : Prop :=
  ∀ s, log (call s).2 = log s ++ pre_events call (cwd s).

(** The plan of a table with, for each selected block, the events that
    building its argument list logs. *)
Definition script (tbl : list (string * M Invocation)) (active_steps : list string)
    (c : string) : list (string * list Event * (exn + Invocation)) :=
  (λ e, (e.1, pre_events e.2 c, (e.2 (blank c)).1))
    <$> filter (λ e, e.1 ∈ active_steps) tbl.

(** The events of the [with] body against its script: block after block,
    the events of the argument list and then the launch, up to the first
    launch that fails or argument list that raises. *)
Inductive trace :
  list (string * list Event * (exn + Invocation)) → exn + unit →
  list Event → Prop :=
  | trace_done : trace [] (inr tt) []
  | trace_ok step pre inv p r evs :
      trace p r evs →
      trace ((step, pre, inr inv) :: p) r (pre ++ EvRun step inv true :: evs)
  | trace_failed step pre inv p :
      trace ((step, pre, inr inv) :: p) (inl ExecutionException)
            (pre ++ [EvRun step inv false])
  | trace_raised step pre e p :
      trace ((step, pre, inl e) :: p) (inl e) pre.

(** The sample configuration with another validation size. *)
Definition sample_config_val_size (v : pyval) (selection : string) : DictConfig :=
  let config := sample_config selection in
  {| main := main config;
     etl := etl config;
     data := data config;
     data_check := data_check config;
     modeling :=
       {| test_size := test_size (modeling config);
          random_seed := random_seed (modeling config);
          stratify_by := stratify_by (modeling config);
          val_size := v;
          max_tfidf_features := max_tfidf_features (modeling config);
          random_forest := random_forest (modeling config) |} |}.

(** The events the [with] body can log: file writes and launches. *)
Definition is_body_event (e : Event) : Prop :=
  match e with
  | EvWrite _ _ | EvRun _ _ _ => True
  | _ => False
  end.

(** The files after the writes of a list of events. *)
Definition replay (evs : list Event) (fs : gmap string string) : gmap string string :=
  foldl (λ fs e, match e with EvWrite p c => <[p := c]> fs | _ => fs end) fs evs.

(** An argument list is faithful when it changes the files by the writes
    it logs and by nothing else. *)
Definition faithful (call : M Invocation) : Prop :=
  ∀ s, files (call s).2 = replay (pre_events call (cwd s)) (files s).

(** The project each block launches. *)
Definition uri_of (config : DictConfig) (step : string) : string :=
  if decide (step = "download") then
    components_repository (main config) +:+ "/get_data"
  else if decide (step = "train_random_forest") then "src/train_random_forest"
  else if decide (step = "test_regression_model") then
    "components/test_regression_model"
  else components_repository (main config) +:+ "/" +:+ step.

(** * Facts *)

(** ** [split] on small inputs *)

Example split_two : split ","%char "data_check,download" = ["data_check"; "download"].
Proof. reflexivity. Qed.

Example split_empty : split ","%char "" = [""].
Proof. reflexivity. Qed.

Example split_gaps : split ","%char "a,,b," = ["a"; ""; "b"; ""].
Proof. reflexivity. Qed.

(** ** The log observations distribute over appended events *)

Lemma runs_app l1 l2 : runs (l1 ++ l2) = runs l1 ++ runs l2.
Proof. apply omap_app. Qed.

Lemma released_app l1 l2 : released (l1 ++ l2) = released l1 ++ released l2.
Proof. apply omap_app. Qed.

Lemma invoked_app l1 l2 : invoked (l1 ++ l2) = invoked l1 ++ invoked l2.
Proof. unfold invoked. by rewrite runs_app, fmap_app. Qed.

Lemma events_of_app {A} (m : M A) s evs :
  log (m s).2 = log s ++ evs → events_of m s = evs.
Proof. unfold events_of. intros ->. by rewrite drop_app_length. Qed.

(** ** What a shape implies *)

Lemma shape_prefix p r tr :
  shape p r tr → (λ e, e.1.1) <$> tr `prefix_of` p.*1.
Proof.
  induction 1; simpl.
  - done.
  - by apply prefix_cons.
  - apply prefix_cons, prefix_nil.
  - apply prefix_nil.
Qed.

Lemma shape_complete p tr :
  shape p (inr tt) tr → (λ e, e.1.1) <$> tr = p.*1 ∧ Forall (λ e, e.2 = true) tr.
Proof.
  remember (inr tt) as r eqn:Hr. induction 1; simpl; try discriminate.
  - done.
  - destruct (IHshape Hr) as [IH ?]. split; [by f_equal | by constructor].
Qed.

(** With nothing planned nothing is launched and nothing raised. *)
Lemma shape_nil_inv r tr : shape [] r tr → r = inr tt ∧ tr = [].
Proof. by inversion 1. Qed.

(** Only the last call made can have failed. *)
Lemma shape_failure_last p r tr i step inv :
  shape p r tr → tr !! i = Some (step, inv, false) → length tr = S i.
Proof.
  intros Hs. revert i. induction Hs; intros i Hi.
  - done.
  - destruct i as [|i]; [done |]. simpl in *. f_equal. by apply IHHs.
  - destruct i as [|i]; [done |]. by destruct i.
  - done.
Qed.

(** Every call made is the planned one at the same position. *)
Lemma shape_lookup p r tr i step inv ok :
  shape p r tr → tr !! i = Some (step, inv, ok) → p !! i = Some (step, inr inv).
Proof.
  intros Hs. revert i. induction Hs; intros i Hi.
  - done.
  - destruct i as [|i]; simpl in *; [by simplify_eq | by apply IHHs].
  - destruct i as [|i]; simpl in *; [by simplify_eq | by destruct i].
  - done.
Qed.

(** A failed run is reported as [ExecutionException]. *)
Lemma shape_failure_result p r tr i step inv :
  shape p r tr → tr !! i = Some (step, inv, false) → r = inl ExecutionException.
Proof.
  intros Hs. revert i. induction Hs; intros i Hi.
  - done.
  - destruct i as [|i]; simpl in *; [done | by eapply IHHs].
  - done.
  - done.
Qed.

(** ** What removing a directory tree leaves behind *)

Lemma rmtree_dirs d s : d ∉ dirs (rmtree d s).
Proof. simpl. rewrite elem_of_filter. intros [[Hd _] _]. by apply Hd. Qed.

Lemma rmtree_dirs_under d s p : under d p = true → p ∉ dirs (rmtree d s).
Proof. simpl. rewrite elem_of_filter. intros Hp [[_ Hq] _]. congruence. Qed.

Lemma rmtree_files d s p : under d p = true → files (rmtree d s) !! p = None.
Proof.
  intros Hp. simpl. apply map_lookup_filter_None. right.
  intros c _. simpl. congruence.
Qed.

Lemma rmtree_files_keep d s p :
  under d p = false → files (rmtree d s) !! p = files s !! p.
Proof.
  intros Hp. simpl. destruct (files s !! p) as [c|] eqn:Hc.
  - by apply map_lookup_filter_Some.
  - apply map_lookup_filter_None. left. done.
Qed.

(** Removing the tree a second time changes nothing. *)
Lemma rmtree_idem d s : rmtree d (rmtree d s) = rmtree d s.
Proof.
  unfold rmtree. simpl. f_equal.
  - apply map_eq. intros p.
    destruct (under d p) eqn:Hp.
    + rewrite !(proj2 (map_lookup_filter_None _ _ _)); [done | right | right];
        intros c _; simpl; congruence.
    + destruct (filter (λ kv, under d kv.1 = false) (files s) !! p) as [c|] eqn:Hc.
      * by apply map_lookup_filter_Some.
      * apply map_lookup_filter_None. by left.
  - apply set_eq. intros p. rewrite !elem_of_filter. tauto.
Qed.

(** ** The registry and the ordered active set *)

Lemma NoDup_steps : NoDup _steps.
Proof. apply (bool_decide_unpack _). vm_compute. exact I. Qed.

Lemma NoDup_ordered active : NoDup (ordered active).
Proof. apply NoDup_filter, NoDup_steps. Qed.

Lemma elem_of_ordered active step :
  step ∈ ordered active ↔ step ∈ active ∧ known step.
Proof. unfold ordered, known. by rewrite list_elem_of_filter. Qed.

Lemma ordered_sublist active : ordered active `sublist_of` _steps.
Proof. apply sublist_filter. Qed.

(** The ordered active set depends on which tokens are listed, not on
    where or how often. *)
Lemma ordered_ext active active' :
  (∀ tok, tok ∈ active ↔ tok ∈ active') → ordered active = ordered active'.
Proof. intros Heq. apply list_filter_iff. intros step. apply Heq. Qed.

Lemma ordered_known active :
  Forall known active → ∀ tok, tok ∈ ordered active ↔ tok ∈ active.
Proof.
  intros Hk tok. rewrite elem_of_ordered. split; [tauto |].
  intros Hin. split; [done |]. by apply (proj1 (Forall_forall _ _) Hk).
Qed.

(** A selection made of known tokens is not the sentinel. *)
Lemma known_not_sentinel sel :
  Forall known (split "," sel) → active_steps_of sel = split "," sel.
Proof.
  intros Hk. unfold active_steps_of. case_bool_decide as Hs; [done |].
  subst sel. exfalso.
  apply Forall_cons in Hk as [Hall _]. revert Hall. unfold known.
  apply (bool_decide_unpack _). vm_compute. exact I.
Qed.

(** ** Counting occurrences *)

Lemma times_absent step l : step ∉ l → times step l = 0.
Proof.
  unfold times. induction l as [|y l IH]; [done |].
  intros Hn. apply not_elem_of_cons in Hn as [Hne Hn].
  rewrite filter_cons_False by congruence. by apply IH.
Qed.

Lemma times_take_NoDup l j n step :
  NoDup l → l !! j = Some step →
  times step (take n l) = if bool_decide (j < n) then 1 else 0.
Proof.
  intros Hnd. revert j n. induction Hnd as [|y l Hy Hnd IH]; intros j n Hj; [done |].
  destruct n as [|n].
  { rewrite take_0. rewrite bool_decide_eq_false_2 by lia. done. }
  cbn [take]. unfold times. destruct j as [|j]; simpl in Hj.
  - simplify_eq. rewrite filter_cons_True by done. cbn [length].
    rewrite bool_decide_eq_true_2 by lia. f_equal.
    apply times_absent. intros Hin. apply Hy.
    by apply (subseteq_take n l).
  - rewrite filter_cons_False.
    + fold (times step (take n l)). rewrite (IH j n Hj).
      destruct (decide (j < n)).
      * by rewrite !bool_decide_eq_true_2 by lia.
      * by rewrite !bool_decide_eq_false_2 by lia.
    + intros ->. apply Hy. by eapply list_elem_of_lookup_2.
Qed.

Lemma times_NoDup l step : NoDup l → (times step l ≤ 1)%nat.
Proof.
  intros Hnd. destruct (decide (step ∈ l)) as [Hin|Hin].
  - apply list_elem_of_lookup in Hin as [j Hj].
    rewrite <- (firstn_all l).
    rewrite (times_take_NoDup l j _ step Hnd Hj). case_bool_decide; lia.
  - rewrite times_absent by done. lia.
Qed.

Lemma prefix_take_length {A} (l k : list A) :
  l `prefix_of` k → l = take (length l) k.
Proof. intros [t ->]. by rewrite take_app_length. Qed.

(** Running the teardown again raises nothing and changes neither the
    files, nor the directories, nor the environment. *)
Lemma cleanup_again d s :
  let s1 := (cleanup d s).2 in
  result_of (cleanup d) s1 = inr tt ∧
  files (cleanup d s1).2 = files s1 ∧
  dirs (cleanup d s1).2 = dirs s1 ∧
  environ (cleanup d s1).2 = environ s1.
Proof.
  intros s1. split; [done |].
  change (files (cleanup d s1).2) with (files (rmtree d (rmtree d s))).
  change (dirs (cleanup d s1).2) with (dirs (rmtree d (rmtree d s))).
  by rewrite rmtree_idem.
Qed.

Section Facts.

Context `{R : Runtime}.

(** ** Every argument list is quiet *)

Lemma mret_quiet (inv : Invocation) : quiet (mret inv).
Proof.
  intros s. repeat split. exists []. by rewrite app_nil_r.
Qed.

Lemma train_random_forest_call_quiet config :
  quiet (train_random_forest_call config).
Proof.
  intros s. unfold train_random_forest_call.
  unfold mbind, M_bind, bind, lift, abspath, write_file. simpl.
  destruct (py_float _) as [e1|f]; simpl;
    [| destruct (py_int (random_seed _)) as [e2|z]; simpl;
       [| destruct (py_int (max_tfidf_features _)) as [e3|z']; simpl ] ];
    (repeat split; eexists [_]; done).
Qed.

Lemma table_quiet config : Forall (λ e, quiet e.2) (table config).
Proof.
  unfold table. repeat constructor;
    first [ apply mret_quiet | apply train_random_forest_call_quiet ].
Qed.

Lemma table_steps config : (table config).*1 = _steps.
Proof. reflexivity. Qed.

(** ** The chain of [if] blocks is the iteration over the table *)

Lemma pipeline_table config active tmp_dir s :
  pipeline config active tmp_dir s = run_table (table config) active s.
Proof. reflexivity. Qed.

(** ** The calls made follow the plan *)

Lemma plan_skip step call rest active c :
  step ∉ active → plan ((step, call) :: rest) active c = plan rest active c.
Proof. intros Hn. unfold plan. by rewrite filter_cons_False. Qed.

Lemma plan_take step call rest active c :
  step ∈ active →
  plan ((step, call) :: rest) active c
  = (step, (call (blank c)).1) :: plan rest active c.
Proof. intros Hy. unfold plan. by rewrite filter_cons_True. Qed.

Lemma run_table_shape tbl active s :
  Forall (λ e, quiet e.2) tbl →
  environ (run_table tbl active s).2 = environ s ∧
  cwd (run_table tbl active s).2 = cwd s ∧
  ∃ evs, log (run_table tbl active s).2 = log s ++ evs ∧
         released evs = [] ∧
         shape (plan tbl active (cwd s)) (run_table tbl active s).1 (runs evs).
Proof.
  intros Hq. revert s. induction Hq as [|[step call] rest Hcall _ IH]; intros s.
  - simpl. repeat split. exists []. rewrite app_nil_r. repeat split. constructor.
  - simpl in Hcall. cbn [run_table]. unfold py_in.
    unfold mbind, M_bind, bind. case_bool_decide as Hin; cbn [when].
    + rewrite (plan_take _ _ _ _ _ Hin).
      destruct (Hcall s) as (Henv & Hcwd & Hres & evs & Hlog & Hruns & Hrel).
      rewrite <- Hres. destruct (call s) as [[e|inv] s1]; simpl in *.
      * repeat split; [done..|]. exists evs. rewrite Hruns.
        repeat split; [done..|]. constructor.
      * unfold run. destruct (mlflow_run s1 inv) eqn:Hok; simpl.
        -- destruct (IH (emit (EvRun step inv true) s1)) as (IHenv & IHcwd & evs' & IHlog & IHrel & IHshape).
           simpl in *. rewrite IHenv, IHcwd, Henv, Hcwd. repeat split.
           exists (evs ++ [EvRun step inv true] ++ evs').
           rewrite IHlog, Hlog, !released_app, !runs_app, Hruns, Hrel, IHrel.
           rewrite <- !(assoc_L (++)). repeat split.
           simpl. constructor. by rewrite Hcwd in IHshape.
        -- repeat split; [done..|]. exists (evs ++ [EvRun step inv false]).
           rewrite Hlog, released_app, runs_app, Hruns, Hrel, <- !(assoc_L (++)).
           repeat split. simpl. constructor.
    + rewrite (plan_skip _ _ _ _ _ Hin). apply IH.
Qed.

(** ** One run of [go] from start to end *)

Lemma entered_log config s :
  log (entered config s)
  = log s ++ [ EvSetenv "WANDB_PROJECT" (project_name (main config));
               EvSetenv "WANDB_RUN_GROUP" (experiment_name (main config));
               EvMkdtemp tmp_name ].
Proof. simpl. by rewrite <- !(assoc_L (++)). Qed.

Lemma entered_environ config s :
  environ (entered config s)
  = <["WANDB_RUN_GROUP" := experiment_name (main config)]>
      (<["WANDB_PROJECT" := project_name (main config)]> (environ s)).
Proof. reflexivity. Qed.

Lemma entered_cwd config s : cwd (entered config s) = cwd s.
Proof. reflexivity. Qed.

Lemma go_unfold config s :
  let active := active_steps_of (steps (main config)) in
  let body := run_table (table config) active (entered config s) in
  go config s = (body.1, emit (EvCleanup tmp_name) (rmtree tmp_name body.2)).
Proof.
  intros active body. subst body.
  unfold go, with_TemporaryDirectory, mbind, M_bind, bind, entered.
  unfold setenv, mkdtemp, cleanup. cbn beta iota zeta delta [fst snd].
  fold active. rewrite pipeline_table.
  by destruct (run_table _ _ _).
Qed.

Lemma go_spec config s :
  let active := active_steps_of (steps (main config)) in
  ∃ evs,
    log (go config s).2
    = log s ++ [ EvSetenv "WANDB_PROJECT" (project_name (main config));
                 EvSetenv "WANDB_RUN_GROUP" (experiment_name (main config));
                 EvMkdtemp tmp_name ] ++ evs ++ [EvCleanup tmp_name] ∧
    released evs = [] ∧
    shape (plan (table config) active (cwd s)) (go config s).1 (runs evs).
Proof.
  intros active. rewrite go_unfold. cbn zeta. fold active.
  destruct (run_table_shape (table config) active (entered config s)
              (table_quiet config))
    as (_ & _ & evs & Hlog & Hrel & Hshape).
  exists evs. cbn [fst snd emit log rmtree].
  rewrite Hlog, entered_log, <- !(assoc_L (++)).
  by rewrite entered_cwd in Hshape.
Qed.

Lemma go_environ config s :
  environ (go config s).2
  = <["WANDB_RUN_GROUP" := experiment_name (main config)]>
      (<["WANDB_PROJECT" := project_name (main config)]> (environ s)).
Proof.
  rewrite go_unfold. cbn zeta. cbn [fst snd emit environ rmtree].
  by destruct (run_table_shape (table config)
                 (active_steps_of (steps (main config))) (entered config s)
                 (table_quiet config)) as (-> & _).
Qed.

Lemma plan_steps tbl active c :
  (plan tbl active c).*1 = filter (λ step, step ∈ active) tbl.*1.
Proof.
  induction tbl as [|[step call] rest IH]; [done |].
  destruct (decide (step ∈ active)) as [Hin|Hin].
  - rewrite (plan_take _ _ _ _ _ Hin). cbn [fmap list_fmap fst].
    rewrite filter_cons_True by done. f_equal. apply IH.
  - rewrite (plan_skip _ _ _ _ _ Hin). cbn [fmap list_fmap fst].
    rewrite filter_cons_False by done. apply IH.
Qed.

Lemma plan_table_steps config active c :
  (plan (table config) active c).*1 = ordered active.
Proof. by rewrite plan_steps. Qed.

Lemma go_events config s :
  ∃ evs,
    events_of (go config) s
    = [ EvSetenv "WANDB_PROJECT" (project_name (main config));
        EvSetenv "WANDB_RUN_GROUP" (experiment_name (main config));
        EvMkdtemp tmp_name ] ++ evs ++ [EvCleanup tmp_name] ∧
    released evs = [] ∧
    runs (events_of (go config) s) = runs evs ∧
    shape (plan (table config) (active_steps_of (steps (main config))) (cwd s))
          (result_of (go config) s) (runs evs).
Proof.
  destruct (go_spec config s) as (evs & Hlog & Hrel & Hshape).
  exists evs. rewrite (events_of_app _ _ _ Hlog). repeat split; [done | | done].
  cbn [app]. change (runs (?a :: ?b :: ?c :: ?l)) with (runs l).
  by rewrite runs_app, app_nil_r.
Qed.

Lemma go_shape config s :
  shape (plan (table config) (active_steps_of (steps (main config))) (cwd s))
        (result_of (go config) s) (runs (events_of (go config) s)).
Proof.
  destruct (go_events config s) as (evs & _ & _ & -> & Hshape). done.
Qed.

Lemma go_released config s : released (events_of (go config) s) = [tmp_name].
Proof.
  destruct (go_events config s) as (evs & -> & Hrel & _).
  cbn [app]. change (released (?a :: ?b :: ?c :: ?l)) with (released l).
  by rewrite released_app, Hrel.
Qed.

Lemma go_invoked_prefix config s :
  invoked (events_of (go config) s)
    `prefix_of` ordered (active_steps_of (steps (main config))).
Proof.
  rewrite <- (plan_table_steps config _ (cwd s)).
  apply (shape_prefix _ _ _ (go_shape config s)).
Qed.

(** ** Step selection *)

Lemma py_in_filter_known step active :
  known step → py_in step (filter known active) = py_in step active.
Proof.
  intros Hk. unfold py_in. apply bool_decide_ext.
  rewrite list_elem_of_filter. tauto.
Qed.

Lemma pipeline_filter_known config active tmp_dir s :
  pipeline config active tmp_dir s
  = pipeline config (filter known active) tmp_dir s.
Proof.
  unfold pipeline.
  rewrite !py_in_filter_known
    by (apply (bool_decide_unpack _); vm_compute; exact I).
  reflexivity.
Qed.

(** C3: for a selection whose tokens are all registry steps, the
    executor is invoked for the selected steps in registry order: the
    invocations are always an initial part of the registry filtered by
    the selection, and all of it when the run ends without an
    exception; that list holds exactly the selected tokens, keeps the
    registry's order, and is the same for any other listing of the same
    tokens. *)
Theorem selected_steps_run_in_registry_order config s :
  let sel := split "," (steps (main config)) in
  Forall known sel →
  invoked (events_of (go config) s) `prefix_of` ordered sel ∧
  (result_of (go config) s = inr tt →
     invoked (events_of (go config) s) = ordered sel) ∧
  (∀ step, step ∈ ordered sel ↔ step ∈ sel) ∧
  ordered sel `sublist_of` _steps ∧
  (∀ other, (∀ tok, tok ∈ other ↔ tok ∈ sel) → ordered other = ordered sel).
Proof.
  intros sel Hk. pose proof (go_shape config s) as Hshape.
  pose proof (go_invoked_prefix config s) as Hpre.
  rewrite (known_not_sentinel _ Hk) in Hshape, Hpre. fold sel in Hshape, Hpre.
  split; [done |]. split; [| split; [| split]].
  - intros Hr. rewrite Hr in Hshape.
    apply shape_complete in Hshape as [Hsteps _].
    by rewrite plan_table_steps in Hsteps.
  - by apply ordered_known.
  - apply ordered_sublist.
  - intros other. apply ordered_ext.
Qed.

(** C4: when the executor fails at position [i] of the run, [i] is a
    position of the resolved ordered active set, the steps invoked are
    exactly those at positions up to [i], and every step of the active
    set has been invoked once if its position is at most [i] and not at
    all otherwise. *)
Theorem failure_stops_the_run config s i step inv :
  runs (events_of (go config) s) !! i = Some (step, inv, false) →
  let act := ordered (active_steps_of (steps (main config))) in
  i < length act ∧ act !! i = Some step ∧
  invoked (events_of (go config) s) = take (S i) act ∧
  ∀ j name, act !! j = Some name →
    times name (invoked (events_of (go config) s))
    = if bool_decide (j ≤ i) then 1 else 0.
Proof.
  intros Hi act. pose proof (go_shape config s) as Hshape.
  pose proof (go_invoked_prefix config s) as Hpre. fold act in Hpre.
  assert (act !! i = Some step) as Hact.
  { unfold act. rewrite <- (plan_table_steps config _ (cwd s)).
    rewrite list_lookup_fmap, (shape_lookup _ _ _ _ _ _ _ Hshape Hi). done. }
  assert (invoked (events_of (go config) s) = take (S i) act) as Hinv.
  { rewrite (prefix_take_length _ _ Hpre) at 1. f_equal.
    unfold invoked. rewrite length_fmap.
    apply (shape_failure_last _ _ _ _ _ _ Hshape Hi). }
  split; [by eapply lookup_lt_Some |]. split; [done |]. split; [done |].
  intros j name Hj. rewrite Hinv.
  rewrite (times_take_NoDup act j (S i) name (NoDup_ordered _) Hj).
  destruct (decide (j ≤ i)).
  - by rewrite !bool_decide_eq_true_2 by lia.
  - by rewrite !bool_decide_eq_false_2 by lia.
Qed.

(** C9: whatever the selection, repeated tokens included, no step's
    executor is invoked twice in a run. *)
Theorem each_step_runs_at_most_once config s :
  NoDup (invoked (events_of (go config) s)) ∧
  ∀ step, (times step (invoked (events_of (go config) s)) ≤ 1)%nat.
Proof.
  assert (NoDup (invoked (events_of (go config) s))) as Hnd.
  { destruct (go_invoked_prefix config s) as [rest Hrest].
    pose proof (NoDup_ordered (active_steps_of (steps (main config)))) as Hall.
    rewrite Hrest in Hall. by apply NoDup_app in Hall as [? _]. }
  split; [done |]. intros step. by apply times_NoDup.
Qed.

(** C10: a selection other than the exact string [all] is split at its
    commas; when none of its tokens is a registry step the run invokes
    no executor and ends without an exception; this is the case for the
    empty string, whose only token is the empty one, and for the
    near-misses [All] and [ all]. *)
Theorem sentinel_is_exact_match config s :
  steps (main config) ≠ "all" →
  let sel := steps (main config) in
  active_steps_of sel = split "," sel ∧
  (ordered (split "," sel) = [] →
     result_of (go config) s = inr tt ∧
     invoked (events_of (go config) s) = []) ∧
  (sel = "" → split "," sel = [""]) ∧
  (sel ∈ [""; "All"; " all"] → ordered (split "," sel) = []).
Proof.
  intros Hne sel.
  assert (active_steps_of sel = split "," sel) as Hact.
  { unfold active_steps_of. by rewrite bool_decide_eq_true_2. }
  split; [done |]. split; [| split].
  - intros Hnone. pose proof (go_shape config s) as Hshape.
    fold sel in Hshape. rewrite Hact in Hshape.
    pose proof (plan_table_steps config (split "," sel) (cwd s)) as Hsteps.
    rewrite Hnone in Hsteps. apply fmap_nil_inv in Hsteps.
    rewrite Hsteps in Hshape. apply shape_nil_inv in Hshape as [Hr Htr].
    unfold invoked. by rewrite Htr.
  - by intros ->.
  - intros Hsel. repeat (apply elem_of_cons in Hsel as [->|Hsel]; [by vm_compute |]).
    by apply elem_of_nil in Hsel.
Qed.

(** C7: in every run, whether it returns or raises, the temporary
    directory is released exactly once and is gone afterwards; running
    the teardown a second time raises nothing and changes nothing. *)
Theorem scope_released_exactly_once config s :
  let s' := snd (go config s) in
  released (events_of (go config) s) = [tmp_name] ∧
  (tmp_name ∉ dirs s') ∧
  result_of (cleanup tmp_name) s' = inr tt ∧
  files (cleanup tmp_name s').2 = files s' ∧
  dirs (cleanup tmp_name s').2 = dirs s' ∧
  environ (cleanup tmp_name s').2 = environ s'.
Proof.
  intros s'. split; [apply go_released |].
  unfold s'. rewrite go_unfold. cbn zeta. cbn [snd].
  split; [apply rmtree_dirs |]. apply cleanup_again.
Qed.

(** C6, as amended: on every exit path of a run the temporary
    directory and everything below it is removed; the two environment
    bindings are left set to the configured project and experiment
    names, and no other binding is touched. *)
Theorem scope_directory_removed_environment_kept config s :
  let s' := snd (go config s) in
  (tmp_name ∉ dirs s') ∧
  (∀ p, under tmp_name p = true → files s' !! p = None ∧ p ∉ dirs s') ∧
  environ s' !! "WANDB_PROJECT" = Some (project_name (main config)) ∧
  environ s' !! "WANDB_RUN_GROUP" = Some (experiment_name (main config)) ∧
  (∀ key, key ≠ "WANDB_PROJECT" → key ≠ "WANDB_RUN_GROUP" →
     environ s' !! key = environ s !! key).
Proof.
  intros s'. unfold s'. rewrite go_environ. rewrite go_unfold. cbn zeta. cbn [snd].
  split; [apply rmtree_dirs |]. split; [| split; [| split]].
  - intros p Hp. split; [by apply rmtree_files | by apply rmtree_dirs_under].
  - by rewrite lookup_insert_ne, lookup_insert_eq.
  - by rewrite lookup_insert_eq.
  - intros key H1 H2. by rewrite !lookup_insert_ne.
Qed.

(** C2, as amended: a token that is not a registry step raises no
    error; it is ignored, and the driver does exactly what it does for
    the active list with the unknown tokens taken out. *)
Theorem unknown_tokens_are_ignored config s :
  go config s
  = (setenv "WANDB_PROJECT" (project_name (main config));;
     setenv "WANDB_RUN_GROUP" (experiment_name (main config));;
     with_TemporaryDirectory tmp_name
       (pipeline config
          (filter known (active_steps_of (steps (main config)))))) s.
Proof.
  unfold go, with_TemporaryDirectory, mbind, M_bind, bind.
  unfold setenv, mkdtemp. cbn beta iota zeta.
  by rewrite pipeline_filter_known.
Qed.

End Facts.

Section Determinism.

Context `{R : Runtime}.

(** ** Determinism of the argument lists *)

Lemma agree_refl r : agree r r.
Proof. by destruct r. Qed.

(** The same block in another world builds an agreeing argument list,
    whatever the two current directories. *)
Lemma table_agree run' tmp' config c1 c2 :
  Forall2 (λ e1 e2, e1.1 = e2.1 ∧ agree (e1.2 (blank c1)).1 (e2.2 (blank c2)).1)
    (table config) (@table (elsewhere R run' tmp') config).
Proof.
  unfold table. repeat constructor; try apply agree_refl.
  cbn [fst snd]. unfold train_random_forest_call.
  unfold mbind, M_bind, bind, lift, abspath, write_file. simpl.
  destruct (py_float _) as [e1|f]; simpl; [done |].
  destruct (py_int (random_seed _)) as [e2|z]; simpl; [done |].
  destruct (py_int (max_tfidf_features _)) as [e3|z']; simpl; [done |].
  done.
Qed.

(** Started in the same directory it builds the very same one. *)
Lemma table_same run' tmp' config c :
  Forall2 (λ e1 e2, e1.1 = e2.1 ∧ (e1.2 (blank c)).1 = (e2.2 (blank c)).1)
    (table config) (@table (elsewhere R run' tmp') config).
Proof. unfold table. repeat constructor. Qed.

Lemma plan_Forall2 (P : exn + Invocation → exn + Invocation → Prop)
    tbl1 tbl2 active c1 c2 :
  Forall2 (λ e1 e2, e1.1 = e2.1 ∧ P (e1.2 (blank c1)).1 (e2.2 (blank c2)).1)
    tbl1 tbl2 →
  Forall2 (λ p1 p2, p1.1 = p2.1 ∧ P p1.2 p2.2)
    (plan tbl1 active c1) (plan tbl2 active c2).
Proof.
  induction 1 as [|[step1 call1] [step2 call2] rest1 rest2 [Hstep Hcall] _ IH].
  - constructor.
  - simpl in Hstep, Hcall. subst step2.
    destruct (decide (step1 ∈ active)) as [Hin|Hin].
    + rewrite !(plan_take _ _ _ _ _ Hin). by constructor.
    + by rewrite !(plan_skip _ _ _ _ _ Hin).
Qed.

(** C8: two runs on the same configuration, in whatever state they
    start, whatever the executor answers and wherever the temporary
    directory lies, make agreeing calls position by position: same
    step, same project, and the same parameters key for key up to the
    [rf_config] path; started in the same directory the argument lists
    are equal outright; and when both runs end without an exception
    the two sequences of calls agree as wholes. *)
Theorem parameter_mappings_are_deterministic run' tmp' config s1 s2 :
  let tr1 := runs (events_of (go config) s1) in
  let tr2 := runs (events_of (@go (elsewhere R run' tmp') config) s2) in
  (∀ i e1 e2, tr1 !! i = Some e1 → tr2 !! i = Some e2 → same_call e1 e2) ∧
  (cwd s1 = cwd s2 →
     ∀ i e1 e2, tr1 !! i = Some e1 → tr2 !! i = Some e2 → e1.1 = e2.1) ∧
  (result_of (go config) s1 = inr tt →
     result_of (@go (elsewhere R run' tmp') config) s2 = inr tt →
     Forall2 same_call tr1 tr2).
Proof.
  intros tr1 tr2.
  pose proof (go_shape config s1) as Hs1.
  pose proof (@go_shape (elsewhere R run' tmp') config s2) as Hs2.
  fold tr1 in Hs1. fold tr2 in Hs2.
  set (active := active_steps_of (steps (main config))) in *.
  assert (∀ i e1 e2, tr1 !! i = Some e1 → tr2 !! i = Some e2 → same_call e1 e2)
    as Hpoint.
  { intros i [[st1 inv1] ok1] [[st2 inv2] ok2] H1 H2.
    pose proof (shape_lookup _ _ _ _ _ _ _ Hs1 H1) as Hp1.
    pose proof (shape_lookup _ _ _ _ _ _ _ Hs2 H2) as Hp2.
    pose proof (plan_Forall2 agree _ _ active _ _
                  (table_agree run' tmp' config (cwd s1) (cwd s2))) as Hall.
    apply (Forall2_lookup_lr _ _ _ _ _ _ Hall Hp1 Hp2). }
  split; [done |]. split.
  - intros Hcwd i [[st1 inv1] ok1] [[st2 inv2] ok2] H1 H2.
    pose proof (shape_lookup _ _ _ _ _ _ _ Hs1 H1) as Hp1.
    pose proof (shape_lookup _ _ _ _ _ _ _ Hs2 H2) as Hp2.
    rewrite <- Hcwd in Hp2.
    pose proof (plan_Forall2 eq _ _ active _ _
                  (table_same run' tmp' config (cwd s1))) as Hall.
    destruct (Forall2_lookup_lr _ _ _ _ _ _ Hall Hp1 Hp2) as [Hst Hinv].
    simpl in *. by simplify_eq.
  - intros Hr1 Hr2. rewrite Hr1 in Hs1. rewrite Hr2 in Hs2.
    apply shape_complete in Hs1 as [Hst1 _].
    apply shape_complete in Hs2 as [Hst2 _].
    rewrite plan_table_steps in Hst1.
    rewrite (@plan_table_steps (elsewhere R run' tmp')) in Hst2.
    apply Forall2_same_length_lookup. split; [| done].
    rewrite <- (length_fmap (λ e, e.1.1) tr1), <- (length_fmap (λ e, e.1.1) tr2).
    by rewrite Hst1, Hst2.
Qed.

End Determinism.

(** * The claims on concrete runs *)

(** Under the sentinel every block is eligible, so a run in which nothing
    fails launches the whole registry. *)
Lemma all_invokes_every_step `{R : Runtime} config s :
  steps (main config) = "all" → result_of (go config) s = inr tt →
  invoked (events_of (go config) s) = _steps.
Proof.
  intros Hall Hr. pose proof (go_shape config s) as Hshape.
  rewrite Hr, Hall in Hshape. apply shape_complete in Hshape as [Hsteps _].
  by rewrite plan_table_steps in Hsteps.
Qed.

(** C1: with the selection [all] the active list is the whole registry,
    [test_regression_model] included, and a run in which every step
    succeeds launches [test_regression_model] after the other five. *)
Theorem all_runs_test_regression_model :
  active_steps_of "all" = _steps ∧
  "test_regression_model" ∈ active_steps_of "all" ∧
  result_of (@go (sample_runtime 6) (sample_config "all")) sample_state = inr tt ∧
  invoked (events_of (@go (sample_runtime 6) (sample_config "all")) sample_state)
  = [ "download"; "basic_cleaning"; "data_check"; "train_val_test_split";
      "train_random_forest"; "test_regression_model" ].
Proof.
  split; [done |]. split; [| split].
  - apply (bool_decide_unpack _). vm_compute. exact I.
  - vm_compute. reflexivity.
  - vm_compute. reflexivity.
Qed.

(** C2 fails: the selection [download,foo] names the unknown token [foo],
    yet the run ends without an exception and [download] is launched. *)
Lemma unknown_token_runs_without_error :
  "foo" ∈ split "," "download,foo" ∧
  ¬ known "foo" ∧
  result_of (@go (sample_runtime 6) (sample_config "download,foo")) sample_state
  = inr tt ∧
  invoked (events_of (@go (sample_runtime 6) (sample_config "download,foo"))
             sample_state)
  = ["download"].
Proof.
  split; [| split; [| split]].
  - apply (bool_decide_unpack _). vm_compute. exact I.
  - apply (bool_decide_unpack _). vm_compute. exact I.
  - vm_compute. reflexivity.
  - vm_compute. reflexivity.
Qed.

(** C5: selecting the training step in a run started in
    [/home/user/project] writes [rf_config.json] there and not below the
    temporary directory, passes that path as [rf_config], and leaves the
    file in place when the run has ended and the temporary directory is
    gone. *)
Theorem rf_config_is_left_behind :
  let run := @go (sample_runtime 6) (sample_config "train_random_forest") in
  let path := "/home/user/project/rf_config.json" in
  written (events_of run sample_state) = [path] ∧
  under (@tmp_name (sample_runtime 6)) path = false ∧
  (∃ inv, runs (events_of run sample_state) = [("train_random_forest", inv, true)] ∧
          (("rf_config", PyStr path) ∈ parameters inv)) ∧
  released (events_of run sample_state) = [@tmp_name (sample_runtime 6)] ∧
  files (run sample_state).2 !! path = Some "{}".
Proof.
  cbv zeta. split; [vm_compute; reflexivity |].
  split; [vm_compute; reflexivity |].
  split; [| split; vm_compute; reflexivity].
  eexists. split; [vm_compute; reflexivity |].
  do 5 apply list_elem_of_further. apply list_elem_of_here.
Qed.

(** C6 fails: the run starts with neither variable set and ends, whether
    it returns or raises, with both set. *)
Lemma environment_is_not_restored :
  let ok := @go (sample_runtime 6) (sample_config "download") sample_state in
  let ko := @go (sample_runtime 0) (sample_config "download") sample_state in
  environ sample_state !! "WANDB_PROJECT" = None ∧
  environ sample_state !! "WANDB_RUN_GROUP" = None ∧
  ok.1 = inr tt ∧
  environ ok.2 !! "WANDB_PROJECT" = Some "nyc_airbnb" ∧
  environ ok.2 !! "WANDB_RUN_GROUP" = Some "development" ∧
  ko.1 = inl ExecutionException ∧
  environ ko.2 !! "WANDB_PROJECT" = Some "nyc_airbnb" ∧
  environ ko.2 !! "WANDB_RUN_GROUP" = Some "development".
Proof. cbv zeta. repeat split; by vm_compute. Qed.

(** [data_check,download] launches [download] first. *)
Lemma selected_steps_run_in_registry_order_witness :
  Forall known (split "," "data_check,download") ∧
  invoked (events_of (@go (sample_runtime 6) (sample_config "data_check,download"))
             sample_state)
  = ["download"; "data_check"].
Proof.
  assert (Forall known (split "," "data_check,download")) as Hk.
  { apply (bool_decide_unpack _). vm_compute. exact I. }
  split; [exact Hk |].
  destruct (@selected_steps_run_in_registry_order (sample_runtime 6)
              (sample_config "data_check,download") sample_state Hk)
    as (_ & Hall & _).
  rewrite Hall; [| vm_compute]; reflexivity.
Defined.

(** With a budget of one successful run, the second selected step fails
    and the third is never launched. *)
Lemma failure_stops_the_run_witness :
  ∃ inv,
    runs (events_of (@go (sample_runtime 1)
                       (sample_config "download,data_check,train_val_test_split"))
            sample_state) !! 1
    = Some ("data_check", inv, false) ∧
    invoked (events_of (@go (sample_runtime 1)
                          (sample_config "download,data_check,train_val_test_split"))
               sample_state)
    = ["download"; "data_check"].
Proof.
  eexists. split; [vm_compute; reflexivity |].
  edestruct (@failure_stops_the_run (sample_runtime 1)
               (sample_config "download,data_check,train_val_test_split")
               sample_state 1 "data_check") as (_ & _ & Hinv & _).
  { vm_compute. reflexivity. }
  rewrite Hinv. vm_compute. reflexivity.
Defined.

(** The empty selection launches nothing and raises nothing. *)
Lemma sentinel_is_exact_match_witness :
  "" ≠ "all" ∧
  active_steps_of "" = [""] ∧
  result_of (@go (sample_runtime 6) (sample_config "")) sample_state = inr tt ∧
  invoked (events_of (@go (sample_runtime 6) (sample_config "")) sample_state) = [].
Proof.
  assert ("" ≠ "all") as Hne by discriminate.
  destruct (@sentinel_is_exact_match (sample_runtime 6) (sample_config "")
              sample_state Hne) as (Hact & Hrun & _ & Hnone).
  split; [exact Hne |]. split; [exact Hact |].
  apply Hrun, Hnone. apply list_elem_of_here.
Defined.


(** * Further properties of the driver *)

(** ** The token list of a selection *)

Lemma split_nonempty sep s : split sep s ≠ [].
Proof. destruct s as [|c rest]; simpl; [done |]. by repeat case_match. Qed.

Lemma concat_cons_nonempty sep tok toks :
  toks ≠ [] → String.concat sep (tok :: toks) = tok +:+ sep +:+ String.concat sep toks.
Proof. by destruct toks. Qed.

(** X1: joining the tokens of a selection with commas gives the selection
    back; there is at least one token and no token holds a comma. *)
Theorem split_join s :
  String.concat "," (split "," s) = s ∧
  split "," s ≠ [] ∧
  Forall (λ tok, contains "," tok = false) (split "," s).
Proof.
  split; [| split; [apply split_nonempty |]].
  - induction s as [|c rest IH]; [done |]. cbn [split].
    destruct (Ascii.eqb_spec c ",") as [->|Hc].
    + rewrite concat_cons_nonempty by apply split_nonempty. by rewrite IH.
    + pose proof (split_nonempty "," rest) as Hne.
      destruct (split "," rest) as [|tok toks]; [done |].
      destruct toks as [|tok' toks].
      * simpl in *. by rewrite IH.
      * rewrite concat_cons_nonempty by done.
        rewrite concat_cons_nonempty in IH by done.
        by rewrite <- IH.
  - induction s as [|c rest IH]; [by repeat constructor |]. cbn [split].
    destruct (Ascii.eqb_spec c ",") as [->|Hc].
    + by constructor.
    + pose proof (split_nonempty "," rest) as Hne.
      destruct (split "," rest) as [|tok toks]; [done |].
      apply Forall_cons in IH as [Htok Htoks]. constructor; [| done].
      simpl. by rewrite (proj2 (Ascii.eqb_neq _ _) Hc).
Qed.

Lemma split_comma_free sep tok : contains sep tok = false → split sep tok = [tok].
Proof.
  induction tok as [|c rest IH]; [done |]. simpl.
  destruct (Ascii.eqb c sep); [done |]. intros Hc. by rewrite (IH Hc).
Qed.

Lemma split_field sep tok rest :
  contains sep tok = false →
  split sep (tok +:+ String sep rest) = tok :: split sep rest.
Proof.
  induction tok as [|c tok IH]; simpl.
  - intros _. by rewrite Ascii.eqb_refl.
  - destruct (Ascii.eqb c sep); [done |]. intros Hc. by rewrite (IH Hc).
Qed.

(** X2: a selection written as comma-free fields joined by commas splits
    into exactly those fields, empty ones and repeated ones included. *)
Theorem join_split toks :
  toks ≠ [] → Forall (λ tok, contains "," tok = false) toks →
  split "," (String.concat "," toks) = toks.
Proof.
  intros Hne Hfree. induction Hfree as [|tok toks Htok Htoks IH]; [done |].
  destruct toks as [|tok' toks].
  - by apply split_comma_free.
  - rewrite concat_cons_nonempty by done.
    change ("," +:+ ?x) with (String "," x).
    rewrite split_field by done. by rewrite IH.
Qed.

Lemma join_split_witness :
  split "," (String.concat "," ["download"; ""; "download"; " data_check"])
  = ["download"; ""; "download"; " data_check"].
Proof.
  apply join_split; [done |]. repeat constructor.
Defined.

(** ** How a run ends *)

Lemma shape_complete_inv p r tr :
  shape p r tr → (λ e, e.1.1) <$> tr = p.*1 → Forall (λ e, e.2 = true) tr →
  r = inr tt.
Proof.
  induction 1 as [|step inv p r tr Hs IH| |]; intros Hsteps Hok.
  - done.
  - apply Forall_cons in Hok as [_ Hok]. rewrite !fmap_cons in Hsteps.
    injection Hsteps as Hsteps. by apply IH.
  - by apply Forall_cons in Hok as [Hf _].
  - done.
Qed.

Lemma shape_result_cases p r tr :
  shape p r tr →
  r = inr tt ∨ r = inl ExecutionException ∨
  ∃ step e, (step, inl e) ∈ p ∧ r = inl e.
Proof.
  induction 1 as [|step inv p r tr Hs IH| |step e p].
  - by left.
  - destruct IH as [?|[?|(st & e & Hin & ?)]]; [by left | by right; left |].
    right; right. exists st, e. split; [by apply list_elem_of_further | done].
  - by right; left.
  - right; right. exists step, e. split; [apply list_elem_of_here | done].
Qed.

Lemma shape_stops_at_raise p r tr k step e :
  shape p r tr → p !! k = Some (step, inl e) → length tr ≤ k ∧ r ≠ inr tt.
Proof.
  intros Hs. revert k. induction Hs as [|st inv p r tr Hs IH| |]; intros k Hk.
  - done.
  - destruct k as [|k]; [done |]. destruct (IH k Hk) as [Hlen Hr].
    split; [simpl; lia | done].
  - destruct k as [|k]; [done |]. split; [simpl; lia | done].
  - split; [simpl; lia | done].
Qed.

Lemma plan_app tbl1 tbl2 active c :
  plan (tbl1 ++ tbl2) active c = plan tbl1 active c ++ plan tbl2 active c.
Proof. unfold plan. by rewrite filter_app, fmap_app. Qed.

Lemma elem_of_plan tbl active c step r :
  (step, r) ∈ plan tbl active c →
  step ∈ active ∧ ∃ call, (step, call) ∈ tbl ∧ r = (call (blank c)).1.
Proof.
  unfold plan. intros Hin. apply list_elem_of_fmap in Hin as ([st call] & Heq & Hin).
  apply list_elem_of_filter in Hin as [Hact Hin]. simpl in *. simplify_eq.
  split; [done |]. by exists call.
Qed.

Lemma prefix_app_short {A} (l l1 l2 : list A) :
  l `prefix_of` l1 ++ l2 → length l ≤ length l1 → l `prefix_of` l1.
Proof.
  intros [t Ht] Hlen. exists (take (length l1 - length l) t).
  apply (f_equal (take (length l1))) in Ht.
  rewrite take_app_length, take_app in Ht.
  by rewrite (take_ge l) in Ht by lia.
Qed.

Section Endings.

Context `{R : Runtime}.

(** The blocks of the chain, one by one. *)
Lemma table_entry config step call :
  (step, call) ∈ table config →
  (step = "train_random_forest" ∧ call = train_random_forest_call config) ∨
  (step ≠ "train_random_forest" ∧ known step ∧
   ∃ inv, call = mret inv ∧ entry_point inv = "main" ∧
          env_manager inv = "conda" ∧ uri inv = uri_of config step).
Proof.
  unfold table. intros Hin.
  repeat (apply elem_of_cons in Hin as [Heq|Hin];
          [ injection Heq as -> ->;
            first [ left; split; reflexivity
                  | right; split; [discriminate |];
                    split; [apply (bool_decide_unpack _); vm_compute; exact I |];
                    eexists; split; [reflexivity |]; repeat split ] |]).
  by apply elem_of_nil in Hin.
Qed.

Lemma train_call_fields config c inv :
  (train_random_forest_call config (blank c)).1 = inr inv →
  entry_point inv = "main" ∧ env_manager inv = "conda" ∧
  uri inv = uri_of config "train_random_forest" ∧
  ("rf_config", PyStr (rf_config_path c)) ∈ parameters inv.
Proof.
  unfold train_random_forest_call.
  unfold mbind, M_bind, bind, lift, abspath, write_file. simpl.
  destruct (py_float _) as [e1|f]; simpl; [done |].
  destruct (py_int (random_seed _)) as [e2|z]; simpl; [done |].
  destruct (py_int (max_tfidf_features _)) as [e3|z']; simpl; [done |].
  intros [= <-]. repeat split.
  do 5 apply list_elem_of_further. apply list_elem_of_here.
Qed.

Lemma train_call_raises config c :
  (∃ e, py_float (val_size (modeling config)) = inl e) ∨
  (∃ e, py_int (random_seed (modeling config)) = inl e) ∨
  (∃ e, py_int (max_tfidf_features (modeling config)) = inl e) →
  ∃ e, (train_random_forest_call config (blank c)).1 = inl e.
Proof.
  unfold train_random_forest_call.
  unfold mbind, M_bind, bind, lift, abspath, write_file. simpl.
  destruct (py_float _) as [e1|f]; simpl; [by eexists |].
  destruct (py_int (random_seed _)) as [e2|z]; simpl; [by eexists |].
  destruct (py_int (max_tfidf_features _)) as [e3|z']; simpl; [by eexists |].
  intros [[e ?]|[[e ?]|[e ?]]]; done.
Qed.

(** X3: a run returns normally exactly when it has launched every
    registry step named by the active list, in registry order, and each
    of those launches succeeded. *)
Theorem normal_return_iff config s :
  result_of (go config) s = inr tt ↔
  invoked (events_of (go config) s)
  = ordered (active_steps_of (steps (main config))) ∧
  Forall (λ e, e.2 = true) (runs (events_of (go config) s)).
Proof.
  pose proof (go_shape config s) as Hshape. split.
  - intros Hr. rewrite Hr in Hshape.
    apply shape_complete in Hshape as [Hsteps Hok].
    by rewrite plan_table_steps in Hsteps.
  - intros [Hsteps Hok]. eapply shape_complete_inv; [exact Hshape | | done].
    by rewrite plan_table_steps.
Qed.

(** X4: a failed launch is never swallowed: the run ends with
    [ExecutionException]. *)
Theorem failed_step_raises config s i step inv :
  runs (events_of (go config) s) !! i = Some (step, inv, false) →
  result_of (go config) s = inl ExecutionException.
Proof. intros Hi. eapply shape_failure_result; [apply go_shape | exact Hi]. Qed.

(** X5: when the training step is not selected, no conversion is
    attempted: the run returns normally or ends with
    [ExecutionException], whatever the tunables hold. *)
Theorem only_training_converts config s :
  "train_random_forest" ∉ active_steps_of (steps (main config)) →
  result_of (go config) s = inr tt ∨
  result_of (go config) s = inl ExecutionException.
Proof.
  intros Hno.
  destruct (shape_result_cases _ _ _ (go_shape config s))
    as [?|[?|(step & e & Hin & Hr)]]; [by left | by right |].
  apply elem_of_plan in Hin as (Hact & call & Hcall & Hres).
  apply table_entry in Hcall as [[-> _]|(_ & _ & inv & -> & _)]; done.
Qed.

(** X6: when one of the three conversions of the training block raises
    and the training step is selected, the run does not return normally
    and launches neither the training step nor the step after it: only
    the four steps before it can have been launched. *)
Theorem unconvertible_tunable_blocks_training config s :
  "train_random_forest" ∈ active_steps_of (steps (main config)) →
  (∃ e, py_float (val_size (modeling config)) = inl e) ∨
  (∃ e, py_int (random_seed (modeling config)) = inl e) ∨
  (∃ e, py_int (max_tfidf_features (modeling config)) = inl e) →
  result_of (go config) s ≠ inr tt ∧
  Forall (λ step, step ∈ ["download"; "basic_cleaning"; "data_check";
                          "train_val_test_split"])
         (invoked (events_of (go config) s)).
Proof.
  intros Hsel Hbad. set (active := active_steps_of (steps (main config))) in *.
  pose proof (go_shape config s) as Hshape. fold active in Hshape.
  destruct (train_call_raises config (cwd s) Hbad) as [e He].
  set (before := take 4 (table config)).
  set (after := drop 5 (table config)).
  assert (plan (table config) active (cwd s)
          = plan before active (cwd s)
            ++ ("train_random_forest", inl e) :: plan after active (cwd s)) as Hplan.
  { change (table config)
      with (before ++ [("train_random_forest", train_random_forest_call config)]
                   ++ after).
    rewrite !plan_app. f_equal. f_equal.
    rewrite (plan_take _ _ [] _ _ Hsel). by rewrite He. }
  rewrite Hplan in Hshape.
  destruct (shape_stops_at_raise _ _ _ _ _ _ Hshape
              (list_lookup_middle _ _ _ _ eq_refl)) as [Hlen Hr].
  split; [done |].
  apply shape_prefix in Hshape. rewrite fmap_app in Hshape.
  apply prefix_app_short in Hshape; [| by rewrite !length_fmap in *].
  apply Forall_forall. intros step Hin.
  destruct Hshape as [rest Hrest].
  assert (step ∈ (plan before active (cwd s)).*1) as Hstep.
  { rewrite Hrest. apply elem_of_app. by left. }
  rewrite plan_steps in Hstep. by apply list_elem_of_filter in Hstep as [_ ?].
Qed.

(** X7: every launch the driver makes is for a registry step named by
    the active list, with entry point [main], the [conda] environment
    manager and the project of that step: the shared components
    repository for the first four, a fixed local path for the last
    two. *)
Theorem every_launch_is_well_formed config s :
  Forall (λ e, known e.1.1 ∧
               e.1.1 ∈ active_steps_of (steps (main config)) ∧
               entry_point e.1.2 = "main" ∧
               env_manager e.1.2 = "conda" ∧
               uri e.1.2 = uri_of config e.1.1)
         (runs (events_of (go config) s)).
Proof.
  apply Forall_lookup. intros i [[step inv] ok] Hi.
  pose proof (shape_lookup _ _ _ _ _ _ _ (go_shape config s) Hi) as Hp.
  apply list_elem_of_lookup_2, elem_of_plan in Hp as (Hact & call & Hcall & Hres).
  cbn [fst snd].
  apply table_entry in Hcall as [[-> ->]|(_ & Hk & inv' & -> & Hep & Hem & Huri)].
  - symmetry in Hres. apply train_call_fields in Hres as (? & ? & ? & _).
    repeat split; try done. apply (bool_decide_unpack _). vm_compute. exact I.
  - injection Hres as ->. done.
Qed.

End Endings.

(** ** The events of the [with] body, one by one *)

Lemma script_skip step call rest active c :
  step ∉ active → script ((step, call) :: rest) active c = script rest active c.
Proof. intros Hn. unfold script. by rewrite filter_cons_False. Qed.

Lemma script_take step call rest active c :
  step ∈ active →
  script ((step, call) :: rest) active c
  = (step, pre_events call c, (call (blank c)).1) :: script rest active c.
Proof. intros Hy. unfold script. by rewrite filter_cons_True. Qed.

Lemma elem_of_script tbl active c step pre r :
  (step, pre, r) ∈ script tbl active c →
  step ∈ active ∧
  ∃ call, (step, call) ∈ tbl ∧ pre = pre_events call c ∧ r = (call (blank c)).1.
Proof.
  unfold script. intros Hin.
  apply list_elem_of_fmap in Hin as ([st call] & Heq & Hin).
  apply list_elem_of_filter in Hin as [Hact Hin]. simpl in *. simplify_eq.
  split; [done |]. by exists call.
Qed.

Lemma written_app l1 l2 : written (l1 ++ l2) = written l1 ++ written l2.
Proof. apply omap_app. Qed.

Lemma replay_app l1 l2 fs : replay (l1 ++ l2) fs = replay l2 (replay l1 fs).
Proof. apply foldl_app. Qed.

(** A launch among the events of the body comes right after the events
    of its own argument list. *)
Lemma trace_run_split p r evs step inv ok :
  trace p r evs →
  (∀ st pre r', (st, pre, r') ∈ p → runs pre = []) →
  EvRun step inv ok ∈ evs →
  ∃ pre l1 l2, (step, pre, inr inv) ∈ p ∧
               evs = l1 ++ pre ++ EvRun step inv ok :: l2.
Proof.
  assert (∀ pre, runs pre = [] → EvRun step inv ok ∉ pre) as Hnot.
  { intros pre Hpre Hin. apply list_elem_of_split in Hin as (a & b & ->).
    rewrite runs_app in Hpre. by destruct (runs a). }
  induction 1 as [|st pre inv' p r evs Ht IH|st pre inv' p|st pre e p];
    intros Hwf Hin.
  - by apply elem_of_nil in Hin.
  - apply elem_of_app in Hin as [Hin|Hin].
    { exfalso. eapply Hnot; [| exact Hin]. eapply Hwf, list_elem_of_here. }
    apply elem_of_cons in Hin as [Heq|Hin].
    + injection Heq as -> -> ->. exists pre, [], evs.
      split; [apply list_elem_of_here | done].
    + destruct IH as (pre' & l1 & l2 & Hp & ->); [| done |].
      { intros st' pre' r' Hin'. eapply Hwf, list_elem_of_further, Hin'. }
      exists pre', (pre ++ EvRun st inv' true :: l1), l2.
      split; [by apply list_elem_of_further |].
      by rewrite <- !(assoc_L (++)).
  - apply elem_of_app in Hin as [Hin|Hin].
    { exfalso. eapply Hnot; [| exact Hin]. eapply Hwf, list_elem_of_here. }
    apply list_elem_of_singleton in Hin. injection Hin as -> -> ->.
    exists pre, [], []. split; [apply list_elem_of_here | done].
  - exfalso. eapply Hnot; [| exact Hin]. eapply Hwf, list_elem_of_here.
Qed.

(** The files written follow the script. *)
Lemma trace_written p r evs :
  trace p r evs →
  written evs `prefix_of` mjoin ((λ e, written e.1.2) <$> p).
Proof.
  induction 1 as [|st pre inv p r evs Ht IH|st pre inv p|st pre e p];
    rewrite ?fmap_cons; cbn [mjoin list_join fst snd].
  - done.
  - rewrite written_app. apply prefix_app. apply IH.
  - rewrite written_app, app_nil_r. apply prefix_app_r. done.
  - apply prefix_app_r. done.
Qed.

Lemma trace_body_events p r evs :
  trace p r evs →
  (∀ st pre r', (st, pre, r') ∈ p → Forall is_body_event pre) →
  Forall is_body_event evs.
Proof.
  induction 1 as [|st pre inv p r evs Ht IH|st pre inv p|st pre e p]; intros Hwf.
  - constructor.
  - apply Forall_app. split; [eapply Hwf, list_elem_of_here |].
    constructor; [done |]. apply IH.
    intros st' pre' r' Hin. eapply Hwf, list_elem_of_further, Hin.
  - apply Forall_app. split; [eapply Hwf, list_elem_of_here |].
    by repeat constructor.
  - eapply Hwf, list_elem_of_here.
Qed.

Section Body.

Context `{R : Runtime}.

Lemma mret_steady (inv : Invocation) : steady (mret inv).
Proof. intros s. unfold pre_events. simpl. by rewrite app_nil_r. Qed.

Lemma mret_faithful (inv : Invocation) : faithful (mret inv).
Proof. by intros s. Qed.

Lemma train_pre_events config c :
  pre_events (train_random_forest_call config) c
  = [EvWrite (rf_config_path c) (json_dumps (random_forest (modeling config)))].
Proof.
  unfold pre_events, train_random_forest_call.
  unfold mbind, M_bind, bind, lift, abspath, write_file. simpl.
  destruct (py_float _) as [e1|f]; simpl; [done |].
  destruct (py_int (random_seed _)) as [e2|z]; simpl; [done |].
  by destruct (py_int (max_tfidf_features _)) as [e3|z'].
Qed.

Lemma train_steady config : steady (train_random_forest_call config).
Proof.
  intros s. rewrite train_pre_events. unfold train_random_forest_call.
  unfold mbind, M_bind, bind, lift, abspath, write_file. simpl.
  destruct (py_float _) as [e1|f]; simpl; [done |].
  destruct (py_int (random_seed _)) as [e2|z]; simpl; [done |].
  by destruct (py_int (max_tfidf_features _)) as [e3|z'].
Qed.

Lemma train_faithful config : faithful (train_random_forest_call config).
Proof.
  intros s. rewrite train_pre_events. unfold train_random_forest_call.
  unfold mbind, M_bind, bind, lift, abspath, write_file. simpl.
  destruct (py_float _) as [e1|f]; simpl; [done |].
  destruct (py_int (random_seed _)) as [e2|z]; simpl; [done |].
  by destruct (py_int (max_tfidf_features _)) as [e3|z'].
Qed.

Lemma table_sound config :
  Forall (λ e, quiet e.2 ∧ steady e.2 ∧ faithful e.2) (table config).
Proof.
  unfold table. repeat constructor;
    first [ apply mret_quiet | apply mret_steady | apply mret_faithful
          | apply train_random_forest_call_quiet | apply train_steady
          | apply train_faithful ].
Qed.

Lemma run_table_trace tbl active s :
  Forall (λ e, quiet e.2 ∧ steady e.2 ∧ faithful e.2) tbl →
  ∃ evs, log (run_table tbl active s).2 = log s ++ evs ∧
         trace (script tbl active (cwd s)) (run_table tbl active s).1 evs ∧
         files (run_table tbl active s).2 = replay evs (files s).
Proof.
  intros Hq. revert s.
  induction Hq as [|[step call] rest (Hquiet & Hsteady & Hfaith) _ IH]; intros s.
  - exists []. simpl. rewrite app_nil_r. repeat split. constructor.
  - simpl in Hquiet, Hsteady, Hfaith. cbn [run_table]. unfold py_in.
    unfold mbind, M_bind, bind. case_bool_decide as Hin; cbn [when].
    + rewrite (script_take _ _ _ _ _ Hin).
      destruct (Hquiet s) as (_ & Hcwd & Hres & _).
      pose proof (Hsteady s) as Hlog. pose proof (Hfaith s) as Hfiles.
      rewrite <- Hres. set (pre := pre_events call (cwd s)) in *.
      destruct (call s) as [[e|inv] s1]; simpl in *.
      * exists pre. repeat split; [done | constructor | done].
      * unfold run. destruct (mlflow_run s1 inv) eqn:Hok; simpl.
        -- destruct (IH (emit (EvRun step inv true) s1))
             as (evs' & IHlog & IHtrace & IHfiles).
           simpl in *. exists (pre ++ EvRun step inv true :: evs').
           rewrite IHlog, Hlog, IHfiles, Hfiles, <- !(assoc_L (++)).
           repeat split.
           ++ constructor. by rewrite Hcwd in IHtrace.
           ++ by rewrite replay_app.
        -- exists (pre ++ [EvRun step inv false]).
           rewrite Hlog, Hfiles, <- !(assoc_L (++)). repeat split.
           ++ constructor.
           ++ by rewrite replay_app.
    + rewrite (script_skip _ _ _ _ _ Hin). apply IH.
Qed.

Lemma go_trace config s :
  ∃ evs,
    events_of (go config) s
    = [ EvSetenv "WANDB_PROJECT" (project_name (main config));
        EvSetenv "WANDB_RUN_GROUP" (experiment_name (main config));
        EvMkdtemp tmp_name ] ++ evs ++ [EvCleanup tmp_name] ∧
    trace (script (table config) (active_steps_of (steps (main config))) (cwd s))
          (result_of (go config) s) evs ∧
    files (go config s).2
    = filter (λ kv, under tmp_name kv.1 = false) (replay evs (files s)).
Proof.
  destruct (run_table_trace (table config)
              (active_steps_of (steps (main config))) (entered config s)
              (table_sound config)) as (evs & Hlog & Htrace & Hfiles).
  exists evs. unfold events_of, result_of. rewrite go_unfold. cbn zeta.
  cbn [fst snd emit log files rmtree].
  rewrite Hlog, Hfiles, entered_log, <- !(assoc_L (++)), drop_app_length.
  by rewrite entered_cwd in Htrace.
Qed.

(** What the script of the chain holds for each block. *)
Lemma table_script_entry config active c step pre r :
  (step, pre, r) ∈ script (table config) active c →
  step ∈ active ∧
  ((step = "train_random_forest" ∧
    pre = [EvWrite (rf_config_path c) (json_dumps (random_forest (modeling config)))] ∧
    r = (train_random_forest_call config (blank c)).1) ∨
   (step ≠ "train_random_forest" ∧ pre = [])).
Proof.
  intros Hin. apply elem_of_script in Hin as (Hact & call & Hcall & -> & ->).
  split; [done |].
  apply table_entry in Hcall as [[-> ->]|(Hne & _ & inv & -> & _)].
  - left. by rewrite train_pre_events.
  - by right.
Qed.

End Body.

Lemma trace_Forall (P : Event → Prop) p r evs :
  (∀ step inv ok, P (EvRun step inv ok)) →
  trace p r evs →
  (∀ st pre r', (st, pre, r') ∈ p → Forall P pre) →
  Forall P evs.
Proof.
  intros Hrun.
  induction 1 as [|st pre inv p r evs Ht IH|st pre inv p|st pre e p]; intros Hwf.
  - constructor.
  - apply Forall_app. split; [eapply Hwf, list_elem_of_here |].
    constructor; [done |]. apply IH.
    intros st' pre' r' Hin. eapply Hwf, list_elem_of_further, Hin.
  - apply Forall_app. split; [eapply Hwf, list_elem_of_here |].
    by repeat constructor.
  - eapply Hwf, list_elem_of_here.
Qed.

(** Writes of one content to one path leave that content there. *)
Lemma replay_keeps path content evs fs :
  Forall (λ e, ∀ p c, e = EvWrite p c → p = path ∧ c = content) evs →
  fs !! path = Some content → replay evs fs !! path = Some content.
Proof.
  intros Hall. revert fs. induction Hall as [|e evs He Hall IH]; intros fs Hfs.
  - done.
  - cbn [replay foldl]. apply IH. destruct e as [| |p c| |]; try done.
    destruct (He p c eq_refl) as [-> ->]. apply lookup_insert_eq.
Qed.

Lemma script_app tbl1 tbl2 active c :
  script (tbl1 ++ tbl2) active c = script tbl1 active c ++ script tbl2 active c.
Proof. unfold script. by rewrite filter_app, fmap_app. Qed.

Lemma script_silent tbl active c :
  Forall (λ e, pre_events e.2 c = []) tbl →
  mjoin ((λ e, written e.1.2) <$> script tbl active c) = [].
Proof.
  induction 1 as [|[step call] rest Hpre _ IH]; [done |].
  destruct (decide (step ∈ active)) as [Hin|Hin].
  - rewrite (script_take _ _ _ _ _ Hin), fmap_cons.
    change (mjoin (?x :: ?l)) with (x ++ mjoin l).
    simpl in Hpre. cbn [fst snd]. by rewrite Hpre, IH.
  - by rewrite (script_skip _ _ _ _ _ Hin).
Qed.

Section Orderings.

Context `{R : Runtime}.

Lemma table_script_written config active c :
  mjoin ((λ e, written e.1.2) <$> script (table config) active c)
  = if bool_decide ("train_random_forest" ∈ active) then [rf_config_path c] else [].
Proof.
  change (table config)
    with (take 4 (table config)
          ++ [("train_random_forest", train_random_forest_call config)]
          ++ drop 5 (table config)).
  rewrite !script_app, !fmap_app, !join_app.
  rewrite (script_silent (take 4 (table config)))
    by (unfold table; simpl; repeat constructor).
  rewrite (script_silent (drop 5 (table config)))
    by (unfold table; simpl; repeat constructor).
  rewrite app_nil_r. cbn [app]. case_bool_decide as Hin.
  - rewrite (script_take _ _ _ _ _ Hin), train_pre_events. done.
  - by rewrite (script_skip _ _ _ _ _ Hin).
Qed.

(** X8: every run, however it ends, first sets the two environment
    variables, then creates the temporary directory, then only writes
    files and launches steps, and releases the directory as its last
    action. *)
Theorem run_is_bracketed config s :
  ∃ evs,
    events_of (go config) s
    = [ EvSetenv "WANDB_PROJECT" (project_name (main config));
        EvSetenv "WANDB_RUN_GROUP" (experiment_name (main config));
        EvMkdtemp tmp_name ] ++ evs ++ [EvCleanup tmp_name] ∧
    Forall is_body_event evs.
Proof.
  destruct (go_trace config s) as (evs & Hev & Htrace & _).
  exists evs. split; [done |].
  apply (trace_body_events _ _ _ Htrace).
  intros st pre r' Hin.
  apply table_script_entry in Hin as (_ & [(_ & -> & _)|(_ & ->)]);
    by repeat constructor.
Qed.

Lemma launch_in_body (e : Event) (a b c d : Event) evs step inv ok :
  e = EvRun step inv ok →
  a ≠ e → b ≠ e → c ≠ e → d ≠ e →
  e ∈ [a; b; c] ++ evs ++ [d] → e ∈ evs.
Proof.
  intros -> Ha Hb Hc Hd Hin.
  repeat (apply elem_of_cons in Hin as [?|Hin]; [done |]).
  apply elem_of_app in Hin as [?|Hin]; [done |].
  by apply list_elem_of_singleton in Hin.
Qed.

(** Among the events of the body, a launch of the training step comes
    right after the write of the hyperparameter file. *)
Lemma body_training_split config active c r evs inv ok :
  trace (script (table config) active c) r evs →
  EvRun "train_random_forest" inv ok ∈ evs →
  (∃ l1 l2,
     evs = l1 ++ EvWrite (rf_config_path c)
                         (json_dumps (random_forest (modeling config)))
              :: EvRun "train_random_forest" inv ok :: l2) ∧
  ("rf_config", PyStr (rf_config_path c)) ∈ parameters inv.
Proof.
  intros Htrace Hin.
  destruct (trace_run_split _ _ _ "train_random_forest" inv ok Htrace)
    as (pre & l1 & l2 & Hentry & ->); [| exact Hin |].
  { intros st pre r' Hp.
    by apply table_script_entry in Hp as (_ & [(_ & -> & _)|(_ & ->)]). }
  apply table_script_entry in Hentry as (_ & [(_ & -> & Hres)|(? & _)]); [| done].
  symmetry in Hres. apply train_call_fields in Hres as (_ & _ & _ & Hparam).
  split; [| done]. by exists l1, l2.
Qed.

(** X9: whenever the training step is launched, the event just before
    the launch is the write of the hyperparameter file in the current
    directory, holding the JSON text of [modeling.random_forest], and the
    launch receives that file's path as [rf_config]. *)
Theorem hyperparameters_written_just_before_training config s inv ok :
  EvRun "train_random_forest" inv ok ∈ events_of (go config) s →
  (∃ l1 l2,
     events_of (go config) s
     = l1 ++ EvWrite (rf_config_path (cwd s))
                     (json_dumps (random_forest (modeling config)))
             :: EvRun "train_random_forest" inv ok :: l2) ∧
  ("rf_config", PyStr (rf_config_path (cwd s))) ∈ parameters inv.
Proof.
  intros Hin. destruct (go_trace config s) as (evs & Hev & Htrace & _).
  rewrite Hev in Hin |- *.
  apply (launch_in_body _ _ _ _ _ _ _ _ _ eq_refl) in Hin; [| done..].
  destruct (body_training_split _ _ _ _ _ _ _ Htrace Hin)
    as [(l1 & l2 & ->) Hparam].
  split; [| done].
  eexists (_ :: _ :: _ :: l1), (l2 ++ [EvCleanup tmp_name]).
  cbn [app]. do 3 f_equal. by rewrite <- !(assoc_L (++)).
Qed.

(** X10: the driver writes at most one file per run, the hyperparameter
    file in the current directory, and none at all unless the training
    step is selected. *)
Theorem only_rf_config_is_written config s :
  written (events_of (go config) s)
    `prefix_of`
  (if bool_decide ("train_random_forest" ∈ active_steps_of (steps (main config)))
   then [rf_config_path (cwd s)] else []).
Proof.
  destruct (go_trace config s) as (evs & -> & Htrace & _).
  cbn [app]. change (written (?a :: ?b :: ?c :: ?l)) with (written l).
  rewrite written_app, app_nil_r, <- (table_script_written config).
  apply (trace_written _ _ _ Htrace).
Qed.

(** X11: whenever the training step is launched from a current directory
    whose [rf_config.json] does not lie below the temporary directory,
    the hyperparameter file is still there, with its content, after the
    run has ended and the temporary directory has been removed. *)
Theorem rf_config_survives_the_run config s inv ok :
  EvRun "train_random_forest" inv ok ∈ events_of (go config) s →
  under tmp_name (rf_config_path (cwd s)) = false →
  files (go config s).2 !! rf_config_path (cwd s)
  = Some (json_dumps (random_forest (modeling config))).
Proof.
  intros Hin Hout. destruct (go_trace config s) as (evs & Hev & Htrace & ->).
  apply map_lookup_filter_Some. split; [| done].
  rewrite Hev in Hin.
  apply (launch_in_body _ _ _ _ _ _ _ _ _ eq_refl) in Hin; [| done..].
  destruct (body_training_split _ _ _ _ _ _ _ Htrace Hin) as [(a & b & ->) _].
  assert (Forall (λ e, ∀ p c, e = EvWrite p c →
                       p = rf_config_path (cwd s) ∧
                       c = json_dumps (random_forest (modeling config)))
                 (a ++ EvWrite (rf_config_path (cwd s))
                         (json_dumps (random_forest (modeling config)))
                    :: EvRun "train_random_forest" inv ok :: b))
    as Hall.
  { eapply trace_Forall; [| exact Htrace |].
    { intros st0 inv0 ok0 p c Heq. discriminate. }
    intros st pre r' Hp.
    apply table_script_entry in Hp as (_ & [(_ & -> & _)|(_ & ->)]);
      [| constructor].
    constructor; [| constructor]. by intros p0 c0 [= <- <-]. }
  apply Forall_app in Hall as [_ Hall]. apply Forall_cons in Hall as [_ Hall].
  rewrite replay_app. cbn [replay foldl]. apply (replay_keeps _ _ _ _ Hall).
  apply lookup_insert_eq.
Qed.

End Orderings.


(** ** The further properties on concrete runs *)

(** A run whose first launch fails ends with [ExecutionException]. *)
Lemma failed_step_raises_witness :
  result_of (@go (sample_runtime 0) (sample_config "download")) sample_state
  = inl ExecutionException.
Proof.
  eapply (@failed_step_raises (sample_runtime 0) (sample_config "download")
            sample_state 0 "download").
  vm_compute. reflexivity.
Defined.

(** Without the training step a run of the sample configuration with a
    validation size that is not a number returns normally. *)
Lemma only_training_converts_witness :
  ("train_random_forest" ∉ active_steps_of "download,data_check") ∧
  (result_of (@go (sample_runtime 6)
                (sample_config_val_size (PyStr "a fifth") "download,data_check"))
     sample_state = inr tt ∨
   result_of (@go (sample_runtime 6)
                (sample_config_val_size (PyStr "a fifth") "download,data_check"))
     sample_state = inl ExecutionException).
Proof.
  assert ("train_random_forest" ∉ active_steps_of "download,data_check") as Hno.
  { apply (bool_decide_unpack _). vm_compute. exact I. }
  split; [exact Hno |].
  exact (@only_training_converts (sample_runtime 6)
           (sample_config_val_size (PyStr "a fifth") "download,data_check")
           sample_state Hno).
Defined.

(** With the training step selected the same validation size stops the
    run before training. *)
Lemma unconvertible_tunable_blocks_training_witness :
  "train_random_forest" ∈ active_steps_of "all" ∧
  @py_float (sample_runtime 6) (PyStr "a fifth") = inl TypeError ∧
  result_of (@go (sample_runtime 6) (sample_config_val_size (PyStr "a fifth") "all"))
    sample_state ≠ inr tt ∧
  Forall (λ step, step ∈ ["download"; "basic_cleaning"; "data_check";
                          "train_val_test_split"])
    (invoked (events_of (@go (sample_runtime 6)
                           (sample_config_val_size (PyStr "a fifth") "all"))
                sample_state)).
Proof.
  assert ("train_random_forest" ∈ active_steps_of "all") as Hsel.
  { apply (bool_decide_unpack _). vm_compute. exact I. }
  split; [exact Hsel |]. split; [reflexivity |].
  apply (@unconvertible_tunable_blocks_training (sample_runtime 6)
           (sample_config_val_size (PyStr "a fifth") "all") sample_state Hsel).
  left. by exists TypeError.
Defined.

(** In the sample run of the training step the file is written just
    before the launch. *)
Lemma hyperparameters_written_just_before_training_witness :
  ∃ inv,
    EvRun "train_random_forest" inv true
    ∈ events_of (@go (sample_runtime 6) (sample_config "train_random_forest"))
        sample_state ∧
    ("rf_config", PyStr "/home/user/project/rf_config.json") ∈ parameters inv.
Proof.
  assert (∃ inv, EvRun "train_random_forest" inv true
                 ∈ events_of (@go (sample_runtime 6)
                                (sample_config "train_random_forest"))
                     sample_state) as [inv Hin].
  { eexists. vm_compute. do 4 apply list_elem_of_further. apply list_elem_of_here. }
  exists inv. split; [exact Hin |].
  exact (proj2 (@hyperparameters_written_just_before_training (sample_runtime 6)
                  (sample_config "train_random_forest") sample_state inv true Hin)).
Defined.

(** In the sample run of the training step the file outlives the run. *)
Lemma rf_config_survives_the_run_witness :
  files (@go (sample_runtime 6) (sample_config "train_random_forest") sample_state).2
    !! "/home/user/project/rf_config.json"
  = Some "{}".
Proof.
  assert (∃ inv, EvRun "train_random_forest" inv true
                 ∈ events_of (@go (sample_runtime 6)
                                (sample_config "train_random_forest"))
                     sample_state) as [inv Hin].
  { eexists. vm_compute. do 4 apply list_elem_of_further. apply list_elem_of_here. }
  apply (@rf_config_survives_the_run (sample_runtime 6)
           (sample_config "train_random_forest") sample_state inv true Hin).
  vm_compute. reflexivity.
Defined.
